(** * null: a tri-state nullable container and the filtering engine built on it

    A shallow embedding of the Go package [null] ([null.go], [filter.go]).

    - [Var T] is the generic container of [null.go]; methods with a
      pointer receiver are functions from the old container to the new one
      (paired with the returned error where the method returns one).
    - [any] is the universe of Go values the filtering engine of
      [filter.go] can meet behind an [any] interface: containers,
      [map[string]any] maps, structs with their reflected field
      descriptors, pointers that are not nil, and opaque values.
    - a Go [map[string]any] is a [gmap string any]; the [retMap] that the
      engine fills is the accumulator of a fold over the entries or over
      the fields in declaration order. *)

From Stdlib Require Import Ascii String.
From Stdlib Require Strings.Byte.
From stdpp Require Import gmap strings list fin_maps.

Open Scope string_scope.

(** ** The container: [null.go] *)

(** [Var[T]]: [set] tells if the value was set, [valid] tells if it is
    not NULL, [value] is the payload. *)
Record Var (T : Type) := mkVar { set : bool; valid : bool; value : T }.
Arguments mkVar {T} _ _ _.
Arguments set {T} _.
Arguments valid {T} _.
Arguments value {T} _.

(** Field assignments [v.set = b], [v.valid = b], [v.value = x]. *)
Definition assign_set {T} (v : Var T) (b : bool) : Var T :=
  mkVar b (valid v) (value v).
Definition assign_valid {T} (v : Var T) (b : bool) : Var T :=
  mkVar (set v) b (value v).
Definition assign_value {T} (v : Var T) (x : T) : Var T :=
  mkVar (set v) (valid v) x.

#[local] Instance byte_eq_dec : EqDecision Byte.byte := Byte.byte_eq_dec.

(** [nullBytes = []byte("null")] *)
Definition nullBytes : list Byte.byte := list_byte_of_string "null".

(** [bytes.Equal] *)
Definition bytes_Equal (a b : list Byte.byte) : bool :=
  bool_decide (a = b).

Section Container.
(** The payload type, its zero value ([var def T]), the error type, and
    the collaborators the container calls: [json.Marshal] and
    [json.Unmarshal] of [encoding/json] (the latter writes through the
    pointer it is given and may fail), and the coercion routine
    [convertAssign], which [null.go] calls and does not define. *)
Context {T : Type} (def : T).
Context {error : Type}.
Context (json_Marshal : T -> list Byte.byte * option error).
Context (json_Unmarshal : list Byte.byte -> T -> T * option error).
Context {Src : Type}.
Context (convertAssign : T -> Src -> T * option error).

(** [func (v *Var[T]) Set(value T)] *)
Definition Var_Set (v : Var T) (x : T) : Var T :=
  let v := assign_set v true in
  let v := assign_valid v true in
  assign_value v x.

(** [func (v *Var[T]) Unset()] *)
Definition Var_Unset (v : Var T) : Var T :=
  let v := assign_set v false in
  let v := assign_valid v false in
  assign_value v def.

(** [func (v *Var[T]) SetNil()] *)
Definition Var_SetNil (v : Var T) : Var T :=
  let v := assign_set v true in
  let v := assign_valid v false in
  assign_value v def.

(** [Val], [IsSet], [Valid] *)
Definition Val (v : Var T) : T := value v.
Definition IsSet (v : Var T) : bool := set v.
Definition Valid (v : Var T) : bool := valid v.

(** [func (v Var[T]) MarshalJSON() ([]byte, error)] *)
Definition MarshalJSON (v : Var T) : list Byte.byte * option error :=
  if negb (valid v) || negb (set v) then (nullBytes, None)
  else json_Marshal (value v).

(** [func (v *Var[T]) UnmarshalJSON(data []byte) error]: the new
    container and the returned error. *)
Definition UnmarshalJSON (v : Var T) (data : list Byte.byte)
  : Var T * option error :=
  let v := assign_set v true in
  let v := assign_value v def in
  if bytes_Equal nullBytes data then
    let v := assign_valid v false in
    (v, None)
  else
    let v := assign_valid v true in
    let '(x, err) := json_Unmarshal data (value v) in
    (assign_value v x, err).

(** [func (v *Var[T]) Scan(src any) error]; [src = None] is Go's [nil]. *)
Definition Scan (v : Var T) (src : option Src) : Var T * option error :=
  let v := assign_set v true in
  match src with
  | None =>
      let v := assign_value (assign_valid v false) def in
      (v, None)
  | Some s =>
      let v := assign_valid v true in
      let '(x, err) := convertAssign (value v) s in
      (assign_value v x, err)
  end.

(** The invariant of the data model.  Its third clause, that a set and
    valid container holds the live payload, puts no constraint on
    [value]: every inhabitant of [T] is a payload. *)
Definition tri_state (v : Var T) : Prop :=
  (set v = false -> valid v = false /\ value v = def) /\
  (set v = true -> valid v = false -> value v = def).
End Container.

(** [isSet] and [getVal], the methods of the internal interface [nullVar].
    [getVal] returns an [any]: [None] is the [nil] interface. *)
Definition isSet {T} (v : Var T) : bool := set v.

Definition getVal {T} (v : Var T) : option T :=
  if negb (set v) || negb (valid v) then None else Some (value v).

(** ** Go values seen by the engine: [filter.go] *)

(** [reflect.Kind], as far as the engine tells kinds apart. *)
Inductive kind := KStruct | KMap | KOther.

Definition kind_eqb (a b : kind) : bool :=
  match a, b with
  | KStruct, KStruct | KMap, KMap | KOther, KOther => true
  | _, _ => false
  end.

(** [reflect.StructField] together with what [reflect.Value.Field(i)]
    tells about the field: [Exported] is [CanInterface()], [Anonymous] is
    the embedded flag, [Tag] the struct tag as its list of [key:"value"]
    pairs, [Kind] the kind of the declared type. *)
Record StructField := mkField {
  Name : string;
  Exported : bool;
  Anonymous : bool;
  Tag : list (string * string);
  Kind : kind
}.

(** The values behind Go's [any].  [Nil] is the nil interface, [Str] and
    [Int] are scalars, [Opaque] is any other value the engine copies
    through without looking inside (a slice, a [map[string]string], a
    nil pointer to a type without the methods of [nullVar], ...),
    [NullVar] is a container [Var[T]], [MapAny] a non-nil
    [map[string]any], [NilMap] the nil map of that type, [Struct] a
    struct value: whether its type implements [Filterable], and its
    fields in declaration order, and [Ptr] a pointer that is not nil,
    with the value it points to.

    Two kinds of Go values are not in this universe: a nil pointer whose
    type has the methods of [nullVar] (a nil [*Var[T]], or a struct that
    embeds one), on which the call [val.isSet()] panics, and a
    [map[string]any] that contains itself, on which [filterMap] does not
    return. *)
#[warnings="-register-all"]
Inductive any :=
| Nil
| Str (s : string)
| Int (z : Z)
| Opaque (repr : string)
| NullVar (v : Var any)
| MapAny (m : gmap string any)
| NilMap
| Struct (filterable : bool) (fields : list (StructField * any))
| Ptr (target : any).

(** A [getVal()] result as the [any] it is. *)
Definition toAny (o : option any) : any :=
  match o with
  | None => Nil
  | Some a => a
  end.

(** [reflect.TypeOf(s).Kind()] *)
Definition kindOf (s : any) : kind :=
  match s with
  | NullVar _ | Struct _ _ => KStruct
  | MapAny _ | NilMap => KMap
  | _ => KOther
  end.

(** The type assertion [x.(Filterable)]. *)
Definition asFilterable (x : any) : bool :=
  match x with
  | Struct true _ => true
  | _ => false
  end.

(** The methods [isSet] and [getVal] are declared on [Var[T]] with a
    value receiver, and no other type of the package declares methods or
    fields of these names. So the types that have them are [Var[T]],
    the structs that embed, at any depth, a type that has them, and the
    pointers to such types (not the pointers to pointers). [promoted]
    lists the containers whose methods a selector [x.isSet] could mean,
    each with the depth of embedding at which it is found. *)
Fixpoint promoted (x : any) : list (nat * Var any) :=
  match x with
  | NullVar v => [(0, v)]
  | Ptr p =>
      match p with
      | Ptr _ => []
      | _ => promoted p
      end
  | Struct _ fields =>
      flat_map (fun f : StructField * any =>
                  let '(sf, y) := f in
                  if Anonymous sf
                  then map (fun e : nat * Var any => (S e.1, e.2)) (promoted y)
                  else []) fields
  | _ => []
  end.

(** Go's rule for selectors: [x.f] is the [f] at the shallowest depth,
    and is legal, so that the method is in the method set, only if there
    is exactly one [f] at that depth. *)
Definition shallowest (c : list (nat * Var any)) : option (Var any) :=
  match c with
  | [] => None
  | (d0, _) :: rest =>
      let d := fold_right Nat.min d0 (map fst rest) in
      match List.filter (fun e : nat * Var any => (e.1 =? d)%nat) c with
      | [(_, v)] => Some v
      | _ => None
      end
  end.

(** The type assertion [x.(nullVar)]: when it succeeds, the container
    whose [isSet] and [getVal] the calls on [x] run. *)
Definition asNullVar (x : any) : option (Var any) :=
  shallowest (promoted x).

(** [structField.Tag.Lookup(tag)]: the value of the first pair under that
    key, and whether there is one. *)
Fixpoint Tag_Lookup (t : list (string * string)) (key : string)
  : string * bool :=
  match t with
  | [] => ("", false)
  | (k, v) :: rest => if String.eqb k key then (v, true) else Tag_Lookup rest key
  end.

(** [strings.Split(s, sep)] for a one-byte separator. *)
Fixpoint strings_Split (s : string) (sep : ascii) : list string :=
  match s with
  | EmptyString => [EmptyString]
  | String c rest =>
      if Ascii.eqb c sep then EmptyString :: strings_Split rest sep
      else match strings_Split rest sep with
           | [] => [String c EmptyString]
           | hd :: tl => String c hd :: tl
           end
  end.

(** Lines 126 to 133 of [filterStruct]: the output key of a field. *)
Definition fieldNameOf (tag : string) (structField : StructField) : string :=
  let '(fTag, _) := Tag_Lookup (Tag structField) tag in
  let tagOpts := strings_Split fTag "," in
  if (0 <? length tagOpts)%nat then nth 0 tagOpts "" else "".

(** ** [filterMap] *)

(** The body of the loop [for k, v := range m] of [filterMap]; the
    recursive call [filterMap(val)] is the fold of this body over [val]. *)
Fixpoint filterMapEntry (k : string) (v : any) (retMap : gmap string any)
  : gmap string any :=
  match asNullVar v with
  | Some val =>
      if negb (isSet val) then retMap
      else <[k := toAny (getVal val)]> retMap
  | None =>
      match v with
      | MapAny val =>
          let mm := map_fold filterMapEntry ∅ val in
          if (size mm =? 0)%nat then retMap
          else <[k := MapAny mm]> retMap
      | NilMap =>
          (* [filterMap] of the nil map ranges over nothing *)
          let mm : gmap string any := ∅ in
          if (size mm =? 0)%nat then retMap
          else <[k := MapAny mm]> retMap
      | _ => <[k := v]> retMap
      end
  end.

(** [func filterMap(m map[string]any) map[string]any] *)
Definition filterMap (m : gmap string any) : gmap string any :=
  map_fold filterMapEntry ∅ m.

(** ** [filterStruct] *)

(** The loop of lines 154 to 158: copy the entries of [fs] whose key
    [retMap] does not have yet. *)
Definition mergeMissing (retMap fs : gmap string any) : gmap string any :=
  map_fold (fun k v retMap =>
              match retMap !! k with
              | None => <[k := v]> retMap
              | Some _ => retMap
              end) retMap fs.

(** The body of the loop over the fields, lines 112 to 197; each early
    [continue] returns [retMap] as it is.  [filterStruct] stands for the
    recursive call [filterStruct(tag, _)]. *)
Definition filterField (tag : string) (filterStruct : any -> gmap string any)
  (retMap : gmap string any) (f : StructField * any) : gmap string any :=
  let '(structField, fieldValue) := f in
  if negb (Exported structField) then retMap else
  let fieldKind := Kind structField in
  let fieldIsEmbedded := Anonymous structField in
  let '(fTag, tagOk) := Tag_Lookup (Tag structField) tag in
  if negb tagOk && negb fieldIsEmbedded then retMap else
  let tagOpts := strings_Split fTag "," in
  let fieldName := if (0 <? length tagOpts)%nat then nth 0 tagOpts "" else "" in
  if String.eqb fieldName "-"
     || (String.eqb fieldName "" && negb fieldIsEmbedded)
     || (String.eqb fieldName "" && fieldIsEmbedded
         && negb (kind_eqb fieldKind KStruct))
  then retMap else
  match fieldKind with
  | KStruct =>
      if asFilterable fieldValue then
        let fs := filterStruct fieldValue in
        if fieldIsEmbedded && String.eqb fieldName "" then
          mergeMissing retMap fs
        else if (size fs =? 0)%nat then retMap
        else <[fieldName := MapAny fs]> retMap
      else
        match asNullVar fieldValue with
        | Some nv =>
            if isSet nv then <[fieldName := toAny (getVal nv)]> retMap
            else retMap
        | None =>
            if negb (String.eqb fieldName "")
            then <[fieldName := fieldValue]> retMap
            else retMap
        end
  | KMap =>
      match fieldValue with
      | MapAny t =>
          let fm := filterMap t in
          if (size fm =? 0)%nat then retMap
          else <[fieldName := MapAny fm]> retMap
      | NilMap =>
          let fm := filterMap ∅ in
          if (size fm =? 0)%nat then retMap
          else <[fieldName := MapAny fm]> retMap
      | _ => <[fieldName := fieldValue]> retMap
      end
  | KOther => <[fieldName := fieldValue]> retMap
  end.

(** The three fields [reflect] sees in a [Var[T]]; none is exported. *)
Definition Var_fields (v : Var any) : list (StructField * any) :=
  [ (mkField "set" false false [] KOther,
     Opaque (if set v then "true" else "false"));
    (mkField "valid" false false [] KOther,
     Opaque (if valid v then "true" else "false"));
    (mkField "value" false false [] (kindOf (value v)), value v) ].

(** [func filterStruct(tag string, s any) map[string]any].  On a
    container the loop meets the unexported fields of [Var_fields] only
    and leaves [retMap] empty ([Var_fields_skipped] below); on the other
    values that are not structs [NumField] panics, and no caller passes
    one: [FilterStruct] checks the kind, the recursive call is made on a
    field of struct kind. *)
Fixpoint filterStruct (tag : string) (s : any) : gmap string any :=
  match s with
  | Nil => ∅
  | Struct _ fields => fold_left (filterField tag (filterStruct tag)) fields ∅
  | NullVar _ => ∅
  | _ => ∅
  end.

(** ** The exported entry points *)

(** [filterOpts], [filterOpt], [defaultFilterOpts].  A [filterOpt] here is
    a func value that is not nil; the nil func is the [None] of
    [FilterStruct_call] below. *)
Record filterOpts := mkFilterOpts { tag : string }.

Definition filterOpt : Type := filterOpts -> filterOpts.

Definition defaultFilterOpts : filterOpts := {| tag := "json" |}.

(** [func UseTag(tag string) filterOpt] *)
Definition UseTag (t : string) : filterOpt :=
  if String.eqb t "" then fun f => f
  else fun f => {| tag := t |}.

(** The two ways the package builds an error: [errors.New(text)] and
    [fmt.Errorf(format, arg)]. *)
Inductive error :=
| errors_New (text : string)
| fmt_Errorf (format : string) (arg : any).

(** [func FilterStruct(s any, opts ...filterOpt) (map[string]any, error)]
    called with options none of which is nil; a [None] in the first
    component is the nil map. *)
Definition FilterStruct (s : any) (opts : list filterOpt)
  : option (gmap string any) * option error :=
  match s with
  | Nil => (None, Some (errors_New "input cannot be nil"))
  | _ =>
      if negb (kind_eqb (kindOf s) KStruct) then
        (None, Some (fmt_Errorf "invalid type %T. input must be a struct" s))
      else
        let fOpts := fold_left (fun f opt => opt f) opts defaultFilterOpts in
        let retMap := filterStruct (tag fOpts) s in
        (Some retMap, None)
  end.

(** [func FilterMap(m map[string]any) (map[string]any, error)]; the
    argument [None] is the nil map. *)
Definition FilterMap (m : option (gmap string any))
  : option (gmap string any) * option error :=
  match m with
  | None => (None, Some (errors_New "input cannot be nil"))
  | Some m => (Some (filterMap m), None)
  end.

(** ** Calls with options that may be nil *)

(** What a call does: it returns, or it panics. *)
Inductive outcome (A : Type) :=
| Returned (a : A)
| Panicked.
Arguments Returned {A} _.
Arguments Panicked {A}.

(** The loop [for _, opt := range opts { opt(&fOpts) }] of lines 48 to
    50, over options any of which may be the nil func ([None]): the call
    of a nil func panics. *)
Fixpoint applyOpts (opts : list (option filterOpt)) (fOpts : filterOpts)
  : outcome filterOpts :=
  match opts with
  | [] => Returned fOpts
  | None :: _ => Panicked
  | Some opt :: rest => applyOpts rest (opt fOpts)
  end.

(** [FilterStruct] as any caller can call it. *)
Definition FilterStruct_call (s : any) (opts : list (option filterOpt))
  : outcome (option (gmap string any) * option error) :=
  match s with
  | Nil => Returned (None, Some (errors_New "input cannot be nil"))
  | _ =>
      if negb (kind_eqb (kindOf s) KStruct) then
        Returned
          (None, Some (fmt_Errorf "invalid type %T. input must be a struct" s))
      else
        match applyOpts opts defaultFilterOpts with
        | Panicked => Panicked
        | Returned fOpts =>
            let retMap := filterStruct (tag fOpts) s in
            Returned (Some retMap, None)
        end
  end.

(** ** The engine with its call depth made explicit

    [filterMapFuel] and [filterStructFuel] are the two routines again,
    as general recursive functions: every call, also the first, uses up
    one unit of [fuel], and a call without fuel left yields [None]. *)
Fixpoint filterMapFuel (fuel : nat) (m : gmap string any)
  : option (gmap string any) :=
  match fuel with
  | O => None
  | S fuel =>
      map_fold (fun k v acc =>
        retMap ← acc;
        match asNullVar v with
        | Some val =>
            Some (if negb (isSet val) then retMap
                  else <[k := toAny (getVal val)]> retMap)
        | None =>
            match v with
            | MapAny val =>
                mm ← filterMapFuel fuel val;
                Some (if (size mm =? 0)%nat then retMap
                      else <[k := MapAny mm]> retMap)
            | NilMap =>
                mm ← filterMapFuel fuel ∅;
                Some (if (size mm =? 0)%nat then retMap
                      else <[k := MapAny mm]> retMap)
            | _ => Some (<[k := v]> retMap)
            end
        end) (Some ∅) m
  end.

Definition filterFieldFuel (tag : string)
  (filterStruct : any -> option (gmap string any))
  (filterMap : gmap string any -> option (gmap string any))
  (acc : option (gmap string any)) (f : StructField * any)
  : option (gmap string any) :=
  retMap ← acc;
  let '(structField, fieldValue) := f in
  if negb (Exported structField) then Some retMap else
  let fieldKind := Kind structField in
  let fieldIsEmbedded := Anonymous structField in
  let '(fTag, tagOk) := Tag_Lookup (Tag structField) tag in
  if negb tagOk && negb fieldIsEmbedded then Some retMap else
  let tagOpts := strings_Split fTag "," in
  let fieldName := if (0 <? length tagOpts)%nat then nth 0 tagOpts "" else "" in
  if String.eqb fieldName "-"
     || (String.eqb fieldName "" && negb fieldIsEmbedded)
     || (String.eqb fieldName "" && fieldIsEmbedded
         && negb (kind_eqb fieldKind KStruct))
  then Some retMap else
  match fieldKind with
  | KStruct =>
      if asFilterable fieldValue then
        fs ← filterStruct fieldValue;
        Some (if fieldIsEmbedded && String.eqb fieldName "" then
                mergeMissing retMap fs
              else if (size fs =? 0)%nat then retMap
              else <[fieldName := MapAny fs]> retMap)
      else
        match asNullVar fieldValue with
        | Some nv =>
            Some (if isSet nv then <[fieldName := toAny (getVal nv)]> retMap
                  else retMap)
        | None =>
            Some (if negb (String.eqb fieldName "")
                  then <[fieldName := fieldValue]> retMap
                  else retMap)
        end
  | KMap =>
      match fieldValue with
      | MapAny t =>
          fm ← filterMap t;
          Some (if (size fm =? 0)%nat then retMap
                else <[fieldName := MapAny fm]> retMap)
      | NilMap =>
          fm ← filterMap ∅;
          Some (if (size fm =? 0)%nat then retMap
                else <[fieldName := MapAny fm]> retMap)
      | _ => Some (<[fieldName := fieldValue]> retMap)
      end
  | KOther => Some (<[fieldName := fieldValue]> retMap)
  end.

Fixpoint filterStructFuel (fuel : nat) (tag : string) (s : any)
  : option (gmap string any) :=
  match fuel with
  | O => None
  | S fuel =>
      match s with
      | Nil => Some ∅
      | Struct _ fields =>
          fold_left (filterFieldFuel tag (filterStructFuel fuel tag)
                       (filterMapFuel fuel)) fields (Some ∅)
      | NullVar _ => Some ∅
      | _ => Some ∅
      end
  end.

(** The nesting depth of a value: the longest chain of sub-entries and
    sub-fields below it. *)
Fixpoint depth (x : any) : nat :=
  match x with
  | NullVar (mkVar _ _ p) => S (depth p)
  | MapAny m => S (map_fold (fun _ v d => depth v `max` d) 0 m)
  | NilMap => 1
  | Struct _ fields =>
      S (fold_right (fun f d => (let '(_, v) := f in depth v) `max` d) 0 fields)
  | Ptr p => S (depth p)
  | _ => 0
  end.

(** ** Auxiliary notions for the statements *)

(** What one iteration of the loop of [filterMap] stores under the key of
    an entry holding [v], if anything. *)
Definition filterValue (v : any) : option any :=
  match asNullVar v with
  | Some val => if isSet val then Some (toAny (getVal val)) else None
  | None =>
      match v with
      | MapAny val =>
          let mm := filterMap val in
          if (size mm =? 0)%nat then None else Some (MapAny mm)
      | NilMap => None
      | _ => Some v
      end
  end.

(** The keys one field can write into the output. *)
Definition fieldKeys (tag : string) (f : StructField * any) : gset string :=
  dom (filterField tag (filterStruct tag) ∅ f).




(** ** The values of the package's tests ([TestFilterMap],
    [TestFilterStruct]) *)

Definition jsonTag (key : string) : list (string * string) :=
  [("json", key)].
Definition bothTags (key : string) : list (string * string) :=
  [("json", key); ("custom_tag", key)].

(** The embedded interface field [Filterable] of a filterable struct. *)
Definition embedFilterable : StructField * any :=
  (mkField "Filterable" true true [] KOther, Nil).

Definition unsetVar : any := NullVar (mkVar false false (Str "")).

Definition test_m : gmap string any :=
  <["a" := NullVar (mkVar true false (Str ""))]>
  (<["b" := NullVar (mkVar true true (Str "B"))]>
  (<["c" := unsetVar]>
  (<["d" := Str "D"]>
  (<["e" := Opaque "map[ee:ee]"]>
  (<["f" := MapAny (<["a" := NullVar (mkVar true false (Str ""))]>
                    (<["b" := NullVar (mkVar true true (Str "B"))]> ∅))]>
  (<["g" := MapAny (<["a" := unsetVar]> ∅)]> ∅)))))).

Definition test_mExpect : gmap string any :=
  <["a" := Nil]>
  (<["b" := Str "B"]>
  (<["d" := Str "D"]>
  (<["e" := Opaque "map[ee:ee]"]>
  (<["f" := MapAny (<["a" := Nil]> (<["b" := Str "B"]> ∅))]> ∅)))).

Definition test_S3 : any :=
  Struct true
    [ embedFilterable;
      (mkField "SomeField" true false (jsonTag "some_field") KOther, Str "") ].

Definition test_S2 : any :=
  Struct true
    [ embedFilterable;
      (mkField "NoTagNullableStr" true false [] KStruct, unsetVar);
      (mkField "unexportedNullableStr" false false [] KStruct, unsetVar);
      (mkField "OtherS2Field" true false (bothTags "s2_other_str") KOther,
       Str "") ].

Definition test_S1 : any :=
  Struct true
    [ embedFilterable;
      (mkField "NullFieldStr" true false (bothTags "str") KStruct, unsetVar);
      (mkField "unexportedNullFieldInt64" false false
         (bothTags "unexported_nullfield_int64") KStruct,
       NullVar (mkVar false false (Int 0)));
      (mkField "OtherField" true false (bothTags "other_str") KOther, Str "");
      (mkField "StructField" true false (bothTags "s2") KStruct, test_S2);
      (mkField "AnotherStructField" true false (jsonTag "s3") KStruct, test_S3);
      (mkField "S3" true true [] KStruct, test_S3) ].

Definition test_expectDef : gmap string any :=
  <["other_str" := Str ""]>
  (<["some_field" := Str ""]>
  (<["s2" := MapAny (<["s2_other_str" := Str ""]> ∅)]>
  (<["s3" := MapAny (<["some_field" := Str ""]> ∅)]> ∅))).

Definition test_expectedDefCustomTag : gmap string any :=
  <["other_str" := Str ""]>
  (<["s2" := MapAny (<["s2_other_str" := Str ""]> ∅)]> ∅).

Definition test_S4 (c d : Var any) : any :=
  Struct true
    [ embedFilterable;
      (mkField "C" true false (jsonTag "c") KStruct, NullVar c);
      (mkField "D" true false (jsonTag "d") KStruct, NullVar d) ].

Definition test_S6 : any :=
  Struct false [ (mkField "K" true false (jsonTag "k") KOther, Str "") ].

Definition test_def2 : any :=
  Struct false
    [ (mkField "A" true false (jsonTag "a") KStruct,
       NullVar (mkVar true false (Str "")));
      (mkField "B" true false (jsonTag "b") KOther, Str "");
      (mkField "M" true false (jsonTag "m") KMap,
       MapAny (<["z" := NullVar (mkVar true true (Str "z"))]>
               (<["zz" := unsetVar]>
               (<["zzz" := Int 5]>
               (<["mm" := MapAny
                    (<["q" := Str ""]>
                    (<["qq" := NullVar (mkVar true true (Opaque "0.2"))]>
                    (<["qqq" := NullVar (mkVar true false (Opaque "0"))]>
                     ∅)))]> ∅)))));
      (mkField "M2" true false (jsonTag "m2") KMap,
       Opaque "map[m2:222 m22:2222]");
      (mkField "M3" true false (jsonTag "m3") KMap,
       MapAny (<["m3" := unsetVar]> ∅));
      (mkField "S" true false (jsonTag "s") KStruct,
       test_S4 (mkVar false false (Int 0)) (mkVar true false (Int 0)));
      (mkField "S4" true true (jsonTag "ss") KStruct,
       test_S4 (mkVar false false (Int 0)) (mkVar false false (Int 0)));
      (mkField "US6" true false (jsonTag "s6_1") KStruct, test_S6);
      (mkField "S6" true true (jsonTag "s6_2") KStruct, test_S6) ].

Definition test_expectedDef2 : gmap string any :=
  <["a" := Nil]>
  (<["b" := Str ""]>
  (<["m" := MapAny (<["z" := Str "z"]>
                   (<["zzz" := Int 5]>
                   (<["mm" := MapAny (<["q" := Str ""]>
                                     (<["qq" := Opaque "0.2"]>
                                     (<["qqq" := Nil]> ∅)))]> ∅)))]>
  (<["m2" := Opaque "map[m2:222 m22:2222]"]>
  (<["s" := MapAny (<["d" := Nil]> ∅)]>
  (<["s6_1" := test_S6]>
  (<["s6_2" := test_S6]> ∅)))))).

(** ** Inputs at which claims of the specification are evaluated *)


(** [struct { Filterable; X string `json:"x"` }] holding ["b"], and
    [struct { A Var[string] `json:"x"`; Inner }] with [A] unset and that
    record embedded as [Inner]. *)
Definition inner_x : any :=
  Struct true
    [ embedFilterable;
      (mkField "X" true false (jsonTag "x") KOther, Str "b") ].



(** [struct { Filterable; T string `json:"s"` }] holding ["t"], and
    [struct { S S4 `json:"s"`; Inner }] where both containers of [S] are
    unset, so that [S] filters to the empty map, and that record is
    embedded as [Inner]. *)
Definition inner_s : any :=
  Struct true
    [ embedFilterable;
      (mkField "T" true false (jsonTag "s") KOther, Str "t") ].

Definition shared_key_nested : any :=
  Struct false
    [ (mkField "S" true false (jsonTag "s") KStruct,
       test_S4 (mkVar false false (Int 0)) (mkVar false false (Int 0)));
      (mkField "Inner" true true [] KStruct, inner_s) ].


(** [struct { inner }] where [inner] is the type of [inner_x], a
    filterable record type whose name is not exported. *)
Definition unexported_embedded_record : any :=
  Struct false [ (mkField "inner" false true [] KStruct, inner_x) ].



(** [json.Marshal] on a [bool], and on a payload that is itself a
    container: [encoding/json] calls the [MarshalJSON] method of a value
    that has one. *)
Definition json_Marshal_bool (b : bool) : list Byte.byte * option string :=
  (list_byte_of_string (if b then "true" else "false"), None).

Definition json_Marshal_Var (p : Var bool) : list Byte.byte * option string :=
  MarshalJSON json_Marshal_bool p.

(** A set and valid [Var[Var[bool]]] whose payload is an unset container. *)
Definition nested_unset : Var (Var bool) :=
  mkVar true true (mkVar false false false).

(** ** The storage side of the container: [Value] *)

Section Valuer.
(** The payload type, the type behind [driver.Value], the payload seen as
    a [driver.Value], and the type assertion [any(v.value).(driver.Valuer)]
    followed by the call of its [Value()]: [None] when the payload's type
    does not implement [driver.Valuer]. *)
Context {T : Type} {error : Type} {DV : Type}.
Context (toValue : T -> DV).
Context (Valuer_Value : T -> option (option DV * option error)).

(** [func (v Var[T]) Value() (driver.Value, error)]; a [None] in the
    first component is the nil [driver.Value]. *)
Definition Value (v : Var T) : option DV * option error :=
  if negb (set v) || negb (valid v) then (None, None)
  else
    match Valuer_Value (value v) with
    | Some r => r
    | None => (Some (toValue (value v)), None)
    end.
End Valuer.

(** ** More notions for the statements *)


(** A string without a comma. *)
Fixpoint no_comma (s : string) : bool :=
  match s with
  | EmptyString => true
  | String c rest => negb (Ascii.eqb c ",") && no_comma rest
  end.


(** ** The comparison helpers of the tests: [null_test.go] *)

Module NullTest.

(** [type customDefinedSlice []int] *)
Definition customDefinedSlice : Type := list Z.

(** The loop [for i := 0; i < len(u); i++] of the two [Equal] methods on
    slices, from index [i] with [n] iterations to go.  It runs after the
    lengths were found equal, so that no index is out of range. *)
Fixpoint sliceLoop (u o : list Z) (i n : nat) : bool :=
  match n with
  | O => true
  | S n =>
      if negb (nth i u 0 =? nth i o 0)%Z then false
      else sliceLoop u o (S i) n
  end.

(** [func (u customDefinedSlice) Equal(o customDefinedSlice) bool] *)
Definition customDefinedSlice_Equal (u o : customDefinedSlice) : bool :=
  if negb (length u =? length o)%nat then false
  else sliceLoop u o 0 (length u).

(** [type customDefinedStruct struct] *)
Record customDefinedStruct := mkCustomDefinedStruct {
  Str : string;
  Int64 : Z;
  Slice : list Z
}.

(** [func (u customDefinedStruct) Equal(o customDefinedStruct) bool] *)
Definition customDefinedStruct_Equal (u o : customDefinedStruct) : bool :=
  if negb (length (Slice u) =? length (Slice o))%nat then false
  else if negb (sliceLoop (Slice u) (Slice o) 0 (length (Slice u))) then false
  else String.eqb (Str u) (Str o) && (Int64 u =? Int64 o)%Z.

Section MapEqual.
(** The key type, on which [==] is identity, the value type, and Go's
    [!=] on the value type. *)
Context {K : Type} `{Countable K} {V : Type} (neq : V -> V -> bool).

(** [func (u customDefinedMap[K, V]) Equal(o customDefinedMap[K, V]) bool]:
    the loop returns [false] at the first key of [u] that [o] has with
    another value, which the fold records in its accumulator. *)
Definition customDefinedMap_Equal (u o : gmap K V) : bool :=
  if negb (size u =? size o)%nat then false
  else
    map_fold (fun k x ok =>
                match o !! k with
                | Some y => if neq x y then false else ok
                | None => ok
                end) true u.
End MapEqual.

Section CheckVar.
(** The payload type, Go's [!=] on it, and what the verb [%v] of [fmt]
    prints for a payload. *)
Context {T : Type} (neq : T -> T -> bool) (fmt_v : T -> string).

(** What the verb [%v] prints for a [bool], and [!=] on [bool]. *)
Definition fmt_bool (b : bool) : string := if b then "true" else "false".

Definition neq_bool (a b : bool) : bool := negb (Bool.eqb a b).

(** [strings.Join(elems, sep)] *)
Definition strings_Join (elems : list string) (sep : string) : string :=
  String.concat sep elems.

(** [func assertEqual[T comparable](t testing.TB, got, want T) error]: the
    message of the error, [None] for the nil error. *)
Definition assertEqual {A : Type} (neqA : A -> A -> bool) (show : A -> string)
  (got want : A) : option string :=
  if neqA got want
  then Some ("got: " ++ show got ++ " != want: " ++ show want)
  else None.

(** [func checkVar[T comparable](t testing.TB, v Var[T], wantSet,
    wantValid bool, wantValue T) error] *)
Definition checkVar (v : Var T) (wantSet wantValid : bool) (wantValue : T)
  : option string :=
  let errSet := assertEqual neq_bool fmt_bool (IsSet v) wantSet in
  let errValid := assertEqual neq_bool fmt_bool (Valid v) wantValid in
  let errValue := assertEqual neq fmt_v (Val v) wantValue in
  let finalErr : list string := [] in
  let finalErr :=
    match errSet with
    | Some e => (finalErr ++ [("[set] " ++ e)%string])%list
    | None => finalErr
    end in
  let finalErr :=
    match errValid with
    | Some e => (finalErr ++ [("[valid] " ++ e)%string])%list
    | None => finalErr
    end in
  let finalErr :=
    match errValue with
    | Some e => (finalErr ++ [("[value] " ++ e)%string])%list
    | None => finalErr
    end in
  if (length finalErr =? 0)%nat then None
  else Some (strings_Join finalErr " ").
End CheckVar.

End NullTest.

(** * Theorems *)

(** ** The package's own tests, run on the embedding *)

Example TestFilterMap_nil :
  FilterMap None = (None, Some (errors_New "input cannot be nil")).
Proof. reflexivity. Qed.

Example TestFilterMap_m : FilterMap (Some test_m) = (Some test_mExpect, None).
Proof. vm_compute. reflexivity. Qed.

Example TestFilterStruct_nil :
  FilterStruct Nil [] = (None, Some (errors_New "input cannot be nil")).
Proof. reflexivity. Qed.

Example TestFilterStruct_int64 :
  FilterStruct (Int 1) [] =
  (None, Some (fmt_Errorf "invalid type %T. input must be a struct" (Int 1))).
Proof. reflexivity. Qed.

Example TestFilterStruct_def :
  FilterStruct test_S1 [] = (Some test_expectDef, None).
Proof. vm_compute. reflexivity. Qed.

Example TestFilterStruct_custom_tag :
  FilterStruct test_S1 [UseTag "custom_tag"]
  = (Some test_expectedDefCustomTag, None).
Proof. vm_compute. reflexivity. Qed.

Example TestFilterStruct_def2 :
  FilterStruct test_def2 [] = (Some test_expectedDef2, None).
Proof. vm_compute. reflexivity. Qed.

Example TestFilterStruct_def2_empty_tag :
  FilterStruct test_def2 [UseTag ""] = (Some test_expectedDef2, None).
Proof. vm_compute. reflexivity. Qed.

(** ** The methods of [nullVar], promoted *)

(** A struct that embeds a container has its methods, and so has a
    pointer to a container: map filtering unwraps both. *)
Example embedding_struct_is_unwrapped :
  filterMap
    {[ "k" := Struct false
                [ (mkField "Var" true true [] KStruct,
                   NullVar (mkVar true true (MapAny ∅))) ] ]}
  = {[ "k" := MapAny ∅ ]}.
Proof. vm_compute. reflexivity. Qed.

Example pointer_to_unset_container_is_dropped :
  filterMap {[ "k" := Ptr (NullVar (mkVar false false (Str ""))) ]} = ∅.
Proof. vm_compute. reflexivity. Qed.

(** Two embedded containers at the same depth make the selector
    ambiguous: the struct has not the methods and is copied through. A
    container embedded at a shallower depth wins over a deeper one. *)
Example ambiguous_embedding_is_copied :
  asNullVar
    (Struct false
       [ (mkField "Var" true true [] KStruct, NullVar (mkVar true true (Int 1)));
         (mkField "V2" true true [] KStruct, NullVar (mkVar false false (Int 0))) ])
  = None.
Proof. reflexivity. Qed.

Example shallowest_embedding_wins :
  asNullVar
    (Struct false
       [ (mkField "Deep" true true [] KStruct,
          Struct false
            [ (mkField "Var" true true [] KStruct,
               NullVar (mkVar false false (Int 0))) ]);
         (mkField "Var" true true [] KStruct, NullVar (mkVar true true (Int 1))) ])
  = Some (mkVar true true (Int 1)).
Proof. reflexivity. Qed.

(** ** Folds over the entries of a Go map *)


Lemma map_fold_max_le (m : gmap string any) k x :
  m !! k = Some x ->
  depth x <= map_fold (fun _ v d => depth v `max` d) 0 m.
Proof.
  revert k x.
  apply (map_fold_weak_ind
           (fun r (m : gmap string any) =>
              forall k x, m !! k = Some x -> depth x <= r)).
  - intros k x Hk. by rewrite lookup_empty in Hk.
  - intros i y m' r Hi IH k x Hk. destruct (decide (i = k)) as [->|Hne].
    + rewrite lookup_insert_eq in Hk. simplify_eq. lia.
    + rewrite lookup_insert_ne in Hk by done. specialize (IH _ _ Hk). lia.
Qed.

Lemma depth_entry (m : gmap string any) k x :
  m !! k = Some x -> depth x < depth (MapAny m).
Proof. intros Hk. apply map_fold_max_le in Hk. simpl. lia. Qed.

Lemma depth_field b (fields : list (StructField * any)) sf x :
  (sf, x) ∈ fields -> depth x < depth (Struct b fields).
Proof.
  intros Hin. simpl. apply Nat.lt_succ_r.
  induction fields as [|[sf' y] fields IH]; [by apply elem_of_nil in Hin|].
  apply elem_of_cons in Hin as [Heq|Hin]; simpl.
  - simplify_eq. lia.
  - specialize (IH Hin). lia.
Qed.

(** ** The type assertion [x.(nullVar)] *)








(** ** [filterMap], entry by entry *)

Lemma filterMapEntry_eq k v (retMap : gmap string any) :
  filterMapEntry k v retMap =
  match asNullVar v with
  | Some val =>
      if negb (isSet val) then retMap
      else <[k := toAny (getVal val)]> retMap
  | None =>
      match v with
      | MapAny val =>
          if (size (filterMap val) =? 0)%nat then retMap
          else <[k := MapAny (filterMap val)]> retMap
      | NilMap => retMap
      | _ => <[k := v]> retMap
      end
  end.
Proof. by destruct v. Qed.



Lemma filterMapEntry_filterValue k v (retMap : gmap string any) :
  filterMapEntry k v retMap =
  match filterValue v with
  | Some x => <[k := x]> retMap
  | None => retMap
  end.
Proof.
  rewrite filterMapEntry_eq. unfold filterValue.
  destruct (asNullVar v) as [val|]; [by destruct (isSet val)|].
  destruct v as [ | | | |val|m| |b fields|p]; try reflexivity.
  by destruct (size (filterMap m) =? 0)%nat.
Qed.

(** The result of [filterMap] does not depend on the order in which the
    loop meets the entries: under each key it holds what the loop body
    stores for that entry. *)
Lemma filterMap_lookup (m : gmap string any) k :
  filterMap m !! k = m !! k ≫= filterValue.
Proof.
  unfold filterMap. revert k.
  apply (map_fold_weak_ind
           (fun r (m : gmap string any) =>
              forall k, r !! k = m !! k ≫= filterValue)).
  - intros k. by rewrite !lookup_empty.
  - intros i x m' r Hi IH k. rewrite filterMapEntry_filterValue.
    destruct (decide (i = k)) as [->|Hne].
    + rewrite lookup_insert_eq. simpl.
      destruct (filterValue x); [by rewrite lookup_insert_eq|].
      by rewrite IH, Hi.
    + rewrite (lookup_insert_ne m') by done.
      destruct (filterValue x); [rewrite lookup_insert_ne by done|]; apply IH.
Qed.


Lemma filterValue_MapAny (m : gmap string any) :
  filterValue (MapAny m)
  = if (size (filterMap m) =? 0)%nat then None else Some (MapAny (filterMap m)).
Proof. reflexivity. Qed.

(** ** Fixed points of [filterMap] *)







(** ** Idempotence of map filtering *)




(** ** [filterStruct], field by field *)

Lemma mergeMissing_union (retMap fs : gmap string any) :
  mergeMissing retMap fs = retMap ∪ fs.
Proof.
  unfold mergeMissing.
  apply (map_fold_weak_ind
           (fun r (fs : gmap string any) => r = retMap ∪ fs)).
  - by rewrite (right_id_L ∅ (∪)).
  - intros i x m r Hi ->.
    rewrite lookup_union_l by done.
    destruct (retMap !! i) as [y|] eqn:Hr.
    + apply map_eq. intros k. rewrite !lookup_union.
      destruct (decide (i = k)) as [->|Hne].
      * by rewrite Hr, Hi, lookup_insert_eq.
      * by rewrite lookup_insert_ne.
    + by rewrite insert_union_r.
Qed.

Lemma filterStruct_fields tg b fields :
  filterStruct tg (Struct b fields)
  = fold_left (filterField tg (filterStruct tg)) fields ∅.
Proof. reflexivity. Qed.

(** The loop over the fields of a container leaves [retMap] as it is. *)
Lemma Var_fields_skipped tg rec v (retMap : gmap string any) :
  fold_left (filterField tg rec) (Var_fields v) retMap = retMap.
Proof. reflexivity. Qed.

Lemma Tag_Lookup_missing t key :
  (Tag_Lookup t key).2 = false -> Tag_Lookup t key = ("", false).
Proof.
  induction t as [|[k v] t IH]; simpl; [done|].
  destruct (String.eqb k key); [done|exact IH].
Qed.

Lemma fieldNameOf_missing tg sf :
  (Tag_Lookup (Tag sf) tg).2 = false -> fieldNameOf tg sf = "".
Proof.
  intros H. unfold fieldNameOf. by rewrite (Tag_Lookup_missing _ _ H).
Qed.

(** The body of the loop in terms of the output key of the field. *)
Lemma filterField_unfold tg rec retMap sf fv :
  filterField tg rec retMap (sf, fv) =
  let fieldName := fieldNameOf tg sf in
  if negb (Exported sf) then retMap else
  if negb (Tag_Lookup (Tag sf) tg).2 && negb (Anonymous sf) then retMap else
  if String.eqb fieldName "-"
     || (String.eqb fieldName "" && negb (Anonymous sf))
     || (String.eqb fieldName "" && Anonymous sf
         && negb (kind_eqb (Kind sf) KStruct))
  then retMap else
  match Kind sf with
  | KStruct =>
      if asFilterable fv then
        if Anonymous sf && String.eqb fieldName "" then retMap ∪ rec fv
        else if (size (rec fv) =? 0)%nat then retMap
        else <[fieldName := MapAny (rec fv)]> retMap
      else
        match asNullVar fv with
        | Some nv =>
            if isSet nv then <[fieldName := toAny (getVal nv)]> retMap
            else retMap
        | None =>
            if negb (String.eqb fieldName "")
            then <[fieldName := fv]> retMap
            else retMap
        end
  | KMap =>
      match fv with
      | MapAny t =>
          if (size (filterMap t) =? 0)%nat then retMap
          else <[fieldName := MapAny (filterMap t)]> retMap
      | NilMap => retMap
      | _ => <[fieldName := fv]> retMap
      end
  | KOther => <[fieldName := fv]> retMap
  end.
Proof.
  unfold filterField, fieldNameOf.
  destruct (Tag_Lookup (Tag sf) tg) as [fTag tagOk]. simpl.
  destruct (negb (Exported sf)); [done|].
  destruct (negb tagOk && negb (Anonymous sf)); [done|].
  match goal with |- context [if ?c then retMap else match Kind sf with _ => _ end] =>
    destruct c; [done|] end.
  destruct (Kind sf); [| |done].
  - destruct (asFilterable fv); [|done].
    by rewrite mergeMissing_union.
  - by destruct fv.
Qed.

(** What a field does to [retMap] is one of three things: nothing, one
    assignment [retMap[k] = v], or the merge of the entries that
    [retMap] does not have yet. *)
Lemma filterField_effect tg rec f :
  (forall retMap, filterField tg rec retMap f = retMap)
  \/ (exists k v, forall retMap, filterField tg rec retMap f = <[k := v]> retMap)
  \/ (exists fs, forall retMap, filterField tg rec retMap f = retMap ∪ fs).
Proof.
  destruct f as [sf fv].
  pose proof (fun r => filterField_unfold tg rec r sf fv) as Hu.
  cbv zeta in Hu.
  destruct (negb (Exported sf)); [by left|].
  destruct (negb (Tag_Lookup (Tag sf) tg).2 && negb (Anonymous sf));
    [by left|].
  destruct (String.eqb (fieldNameOf tg sf) "-"
            || (String.eqb (fieldNameOf tg sf) "" && negb (Anonymous sf))
            || (String.eqb (fieldNameOf tg sf) "" && Anonymous sf
                && negb (kind_eqb (Kind sf) KStruct)));
    [by left|].
  destruct (Kind sf).
  - destruct (asFilterable fv).
    + destruct (Anonymous sf && String.eqb (fieldNameOf tg sf) "").
      * right; right. by eexists.
      * destruct (size (rec fv) =? 0)%nat; [by left|].
        right; left. by eexists _, _.
    + destruct (asNullVar fv) as [nv|].
      * destruct (isSet nv); [|by left]. right; left. by eexists _, _.
      * destruct (negb (String.eqb (fieldNameOf tg sf) "")); [|by left].
        right; left. by eexists _, _.
  - destruct fv as [ | | | |val|m| | | ];
      try (right; left; by eexists _, _).
    + destruct (size (filterMap m) =? 0)%nat; [by left|].
      right; left. by eexists _, _.
    + by left.
  - right; left. by eexists _, _.
Qed.

(** A field leaves alone every key it does not write. *)
Lemma filterField_other_key tg f k (retMap : gmap string any) :
  k ∉ fieldKeys tg f ->
  filterField tg (filterStruct tg) retMap f !! k = retMap !! k.
Proof.
  unfold fieldKeys. intros Hk.
  destruct (filterField_effect tg (filterStruct tg) f)
    as [H|[(k' & v & H)|(fs & H)]]; rewrite H in *.
  - done.
  - rewrite dom_insert_L in Hk. apply lookup_insert_ne. set_solver.
  - rewrite (left_id_L ∅ (∪)) in Hk. apply not_elem_of_dom in Hk.
    rewrite lookup_union. rewrite Hk. by destruct (retMap !! k).
Qed.

Lemma filterFields_other_key tg fields k (retMap : gmap string any) :
  Forall (fun f => k ∉ fieldKeys tg f) fields ->
  fold_left (filterField tg (filterStruct tg)) fields retMap !! k = retMap !! k.
Proof.
  intros Hall. revert retMap.
  induction Hall as [|f fields Hf _ IH]; intros retMap; simpl; [done|].
  rewrite IH. by apply filterField_other_key.
Qed.

Lemma filterStruct_split tg b pre f post :
  filterStruct tg (Struct b (pre ++ f :: post))
  = fold_left (filterField tg (filterStruct tg)) post
      (filterField tg (filterStruct tg)
         (filterStruct tg (Struct b pre)) f).
Proof. rewrite !filterStruct_fields. by rewrite fold_left_app. Qed.

Lemma eqb_false_of_ne (a b : string) : a <> b -> String.eqb a b = false.
Proof. intros H. by apply String.eqb_neq. Qed.



(** A field of struct kind holding a filterable record, emitted under a
    key of its own: lines 159 to 166. *)
Lemma filterField_nested tg rec retMap sf fv :
  Exported sf = true ->
  (Tag_Lookup (Tag sf) tg).2 = true \/ Anonymous sf = true ->
  Kind sf = KStruct ->
  asFilterable fv = true ->
  fieldNameOf tg sf <> "-" -> fieldNameOf tg sf <> "" ->
  filterField tg rec retMap (sf, fv)
  = if (size (rec fv) =? 0)%nat then retMap
    else <[fieldNameOf tg sf := MapAny (rec fv)]> retMap.
Proof.
  intros He Ht Hk Hf Hd Hn. rewrite filterField_unfold. cbv zeta.
  rewrite He, Hk, Hf, (eqb_false_of_ne _ _ Hd), (eqb_false_of_ne _ _ Hn).
  simpl.
  assert (negb (Tag_Lookup (Tag sf) tg).2 && negb (Anonymous sf) = false) as ->.
  { destruct Ht as [-> | ->]; [done|]. by rewrite andb_false_r. }
  by rewrite andb_false_r.
Qed.

(** An embedded field of struct kind holding a filterable record and
    having no key: the merge of lines 153 to 158. *)
Lemma filterField_promoted tg rec retMap sf fv :
  Exported sf = true -> Anonymous sf = true -> Kind sf = KStruct ->
  asFilterable fv = true -> fieldNameOf tg sf = "" ->
  filterField tg rec retMap (sf, fv) = retMap ∪ rec fv.
Proof.
  intros He Ha Hk Hf Hn. rewrite filterField_unfold. cbv zeta.
  rewrite He, Ha, Hk, Hf, Hn. simpl. by rewrite andb_false_r.
Qed.

(** The output key of a record field that no other field writes holds
    what this field stored, or nothing if it stored nothing. *)
Lemma filterStruct_sole_writer tg b pre f post k :
  Forall (fun f' => k ∉ fieldKeys tg f') (pre ++ post) ->
  filterStruct tg (Struct b (pre ++ f :: post)) !! k
  = filterField tg (filterStruct tg) ∅ f !! k.
Proof.
  intros [Hpre Hpost]%Forall_app.
  rewrite filterStruct_split, filterFields_other_key by done.
  destruct (filterField_effect tg (filterStruct tg) f)
    as [H|[(k' & v & H)|(fs & H)]]; rewrite !H.
  - rewrite filterStruct_fields, filterFields_other_key by done. done.
  - destruct (decide (k' = k)) as [->|Hne].
    + by rewrite !lookup_insert_eq.
    + rewrite !lookup_insert_ne by done.
      by rewrite filterStruct_fields, filterFields_other_key.
  - rewrite !lookup_union.
    by rewrite filterStruct_fields, filterFields_other_key.
Qed.

(** ** Containers reached by filtering *)




(** ** Nested values that filter to nothing *)

(** C5, as the specification states it, fails on a record: the nested
    filterable record [S] filters to the empty mapping, and its key [s]
    is in the output all the same, promoted from the embedded record
    [Inner]. *)
Lemma empty_nested_key_present :
  exists out, FilterStruct shared_key_nested [] = (Some out, None)
    /\ filterStruct "json"
         (test_S4 (mkVar false false (Int 0)) (mkVar false false (Int 0))) = ∅
    /\ out !! "s" = Some (Str "t").
Proof. eexists. split; [reflexivity|]. split; vm_compute; reflexivity. Qed.

(** C5, amended: a nested string-to-any mapping that filters to the empty
    mapping leaves no key in the output of map filtering; an exported
    record field of a filterable record type that is emitted under its
    own key and filters to the empty mapping writes nothing, so that the
    parent's output is the output of the record without that field, and
    the key is absent from it unless another field writes it. *)
Theorem empty_nested_omitted :
  (forall (m : gmap string any) k val,
     m !! k = Some (MapAny val) -> filterMap val = ∅ ->
     filterMap m !! k = None)
  /\ (forall tg b pre post sf fv,
     Exported sf = true ->
     (Tag_Lookup (Tag sf) tg).2 = true \/ Anonymous sf = true ->
     Kind sf = KStruct -> asFilterable fv = true ->
     fieldNameOf tg sf <> "" -> fieldNameOf tg sf <> "-" ->
     filterStruct tg fv = ∅ ->
     filterStruct tg (Struct b (pre ++ (sf, fv) :: post))
     = filterStruct tg (Struct b (pre ++ post))
     /\ (Forall (fun f => fieldNameOf tg sf ∉ fieldKeys tg f) (pre ++ post) ->
         filterStruct tg (Struct b (pre ++ (sf, fv) :: post))
           !! fieldNameOf tg sf = None)).
Proof.
  split.
  - intros m k val Hk He. rewrite filterMap_lookup, Hk.
    change (filterValue (MapAny val) = None).
    by rewrite filterValue_MapAny, He.
  - intros tg b pre post sf fv He Ht Hk Hf Hn Hd Hempty.
    assert (forall retMap,
              filterField tg (filterStruct tg) retMap (sf, fv) = retMap) as Hskip.
    { intros retMap. rewrite filterField_nested by done. by rewrite Hempty. }
    split.
    + rewrite filterStruct_split, Hskip.
      by rewrite !filterStruct_fields, fold_left_app.
    + intros Hall. rewrite filterStruct_sole_writer by done.
      by rewrite Hskip, lookup_empty.
Qed.

Lemma empty_nested_omitted_witness :
  filterMap test_m !! "g" = None
  /\ filterStruct "json" test_def2 !! "ss" = None.
Proof.
  split.
  - apply (proj1 empty_nested_omitted test_m "g" (<["a" := unsetVar]> ∅));
      vm_compute; reflexivity.
  - refine (proj2 (proj2 empty_nested_omitted "json" false
              (firstn 6 (match test_def2 with Struct _ fs => fs | _ => [] end))
              (skipn 7 (match test_def2 with Struct _ fs => fs | _ => [] end))
              (mkField "S4" true true (jsonTag "ss") KStruct)
              (test_S4 (mkVar false false (Int 0)) (mkVar false false (Int 0)))
              _ _ _ _ _ _ _) _); try done.
    + by left.
    + repeat constructor; vm_compute; set_solver.
Defined.

(** ** Promotion of embedded records *)

(** C2, as the specification states it, fails: the embedded field of
    [unexported_embedded_record] is a filterable record with no tag
    whose type name is not exported; the loop skips it at line 114, and
    the entry [x] of the embedded record is not in the output. *)
Lemma unexported_embedded_not_merged :
  exists out,
    FilterStruct unexported_embedded_record [] = (Some out, None)
    /\ filterStruct "json" inner_x !! "x" = Some (Str "b")
    /\ out !! "x" = None.
Proof. eexists. split; [reflexivity|]. split; vm_compute; reflexivity. Qed.

(** C2, amended: an exported embedded field of a filterable record type
    with no key of its own has its filtered entries merged into the
    parent's output at top level. Fields are processed in declaration
    order; the merge keeps every entry that the earlier fields wrote and
    adds the embedded record's entries under the other keys only; the
    later fields then work on that output. *)
Theorem embedded_promotion_first_writer_wins tg b pre post sf fv :
  Exported sf = true -> Anonymous sf = true -> Kind sf = KStruct ->
  asFilterable fv = true -> fieldNameOf tg sf = "" ->
  let earlier := filterStruct tg (Struct b pre) in
  let merged := filterStruct tg (Struct b (pre ++ [(sf, fv)])) in
  filterStruct tg (Struct b (pre ++ (sf, fv) :: post))
  = fold_left (filterField tg (filterStruct tg)) post merged
  /\ (forall k v, earlier !! k = Some v -> merged !! k = Some v)
  /\ (forall k, earlier !! k = None -> merged !! k = filterStruct tg fv !! k).
Proof.
  intros He Ha Hk Hf Hn earlier merged.
  assert (merged = earlier ∪ filterStruct tg fv) as Hm.
  { unfold merged. rewrite filterStruct_split. cbn [fold_left].
    by rewrite filterField_promoted. }
  split; [|split].
  - unfold merged. by rewrite !filterStruct_split.
  - intros k v Hv. rewrite Hm. by apply lookup_union_Some_l.
  - intros k Hv. rewrite Hm. by apply lookup_union_r.
Qed.

Lemma embedded_promotion_witness :
  filterStruct "json" test_S1 !! "some_field" = Some (Str "").
Proof.
  pose proof (embedded_promotion_first_writer_wins "json" true
                (firstn 6 (match test_S1 with Struct _ fs => fs | _ => [] end))
                [] (mkField "S3" true true [] KStruct) test_S3
                eq_refl eq_refl eq_refl eq_refl eq_refl) as (H1 & _ & H3).
  change (filterStruct "json" test_S1 !! "some_field")
    with (filterStruct "json"
            (Struct true
               (firstn 6 (match test_S1 with Struct _ fs => fs | _ => [] end)
                ++ [(mkField "S3" true true [] KStruct, test_S3)]))
            !! "some_field").
  rewrite H3; vm_compute; reflexivity.
Defined.

(** ** Embedded containers *)



(** ** Tag selection *)




(** ** The container *)

Section ContainerFacts.
Context {T : Type} (def : T).
Context {error : Type}.
Context (json_Marshal : T -> list Byte.byte * option error).
Context (json_Unmarshal : list Byte.byte -> T -> T * option error).
Context {Src : Type}.
Context (convertAssign : T -> Src -> T * option error).

Lemma bytes_Equal_true a b : bytes_Equal a b = true <-> a = b.
Proof. unfold bytes_Equal. apply bool_decide_eq_true. Qed.

(** C7: every operation on the container, started from a state that
    satisfies the tri-state invariant, ends in a state that satisfies
    it. *)
Theorem tri_state_preserved (v : Var T) :
  tri_state def v ->
  (forall x, tri_state def (Var_Set v x))
  /\ tri_state def (Var_SetNil def v)
  /\ tri_state def (Var_Unset def v)
  /\ (forall data, tri_state def (UnmarshalJSON def json_Unmarshal v data).1)
  /\ (forall src, tri_state def (Scan def convertAssign v src).1).
Proof.
  intros _. unfold tri_state. repeat split; simpl; try done.
  - unfold UnmarshalJSON in *. simpl in *.
    destruct (bytes_Equal nullBytes data); [done|].
    by destruct (json_Unmarshal data def).
  - unfold UnmarshalJSON in *. simpl in *.
    destruct (bytes_Equal nullBytes data); [done|].
    by destruct (json_Unmarshal data def).
  - unfold UnmarshalJSON. simpl.
    destruct (bytes_Equal nullBytes data); [done|].
    by destruct (json_Unmarshal data def).
  - unfold Scan in *. destruct src as [s|]; simpl in *; [|done].
    by destruct (convertAssign (value v) s).
  - unfold Scan in *. destruct src as [s|]; simpl in *; [|done].
    by destruct (convertAssign (value v) s).
  - unfold Scan. destruct src as [s|]; simpl; [|done].
    by destruct (convertAssign (value v) s).
Qed.

(** C8, amended: MarshalJSON returns the null marker whenever the
    container is unset or invalid, and otherwise returns the JSON
    encoding of the payload, which may be the null marker too;
    UnmarshalJSON always sets the set flag, on the null marker clears
    the valid flag and resets the payload to the zero value, and
    otherwise sets the valid flag and decodes the input into the reset
    payload, returning the decoder's error. *)
Theorem json_contract (v : Var T) :
  (set v = false \/ valid v = false ->
   MarshalJSON json_Marshal v = (nullBytes, None))
  /\ (set v = true -> valid v = true ->
      MarshalJSON json_Marshal v = json_Marshal (value v))
  /\ (forall data,
      let r := UnmarshalJSON def json_Unmarshal v data in
      set r.1 = true
      /\ (data = nullBytes ->
          valid r.1 = false /\ value r.1 = def /\ r.2 = None)
      /\ (data <> nullBytes ->
          valid r.1 = true
          /\ (value r.1, r.2) = json_Unmarshal data def)).
Proof.
  split; [|split].
  - unfold MarshalJSON. intros [-> | ->]; [by rewrite orb_true_r|done].
  - unfold MarshalJSON. by intros -> ->.
  - intros data. cbv zeta. unfold UnmarshalJSON. simpl.
    destruct (bytes_Equal nullBytes data) eqn:Heq.
    + apply bytes_Equal_true in Heq. subst data. simpl.
      split; [done|]. split; [done|]. by intros [].
    + assert (data <> nullBytes) as Hne.
      { intros ->. by rewrite (proj2 (bytes_Equal_true _ _) eq_refl) in Heq. }
      destruct (json_Unmarshal data def) as [x err]. simpl.
      split; [done|]. split; [done|]. done.
Qed.
End ContainerFacts.

Lemma tri_state_preserved_witness :
  tri_state 0 (mkVar true true 7)
  /\ tri_state 0 (Var_SetNil 0 (mkVar true true 7))
  /\ tri_state 0
       (Scan (error := string) 0 (fun _ (s : nat) => (s, None))
          (mkVar true true 7) (Some 3)).1.
Proof.
  assert (tri_state 0 (mkVar true true 7)) as H by (split; done).
  pose proof (tri_state_preserved (error := string) 0
                (fun _ x => (x, None)) (fun _ (s : nat) => (s, None))
                (mkVar true true 7) H) as (_ & H2 & _ & _ & H5).
  split; [exact H|]. split; [exact H2|exact (H5 (Some 3))].
Defined.

(** C8, as the specification states it, fails in its "only if": a set and
    valid container whose payload is an unset container encodes to the
    null marker, through the [MarshalJSON] of the payload. *)
Lemma MarshalJSON_null_when_valid :
  ~ ((MarshalJSON json_Marshal_Var nested_unset).1 = nullBytes
     <-> (set nested_unset = false \/ valid nested_unset = false)).
Proof. intros [H _]. by destruct (H eq_refl). Qed.

Lemma json_contract_witness :
  MarshalJSON json_Marshal_Var (mkVar true false (mkVar true true true))
  = (nullBytes, None)
  /\ MarshalJSON json_Marshal_Var nested_unset
     = json_Marshal_Var (value nested_unset).
Proof.
  pose proof (json_contract (mkVar false false false) json_Marshal_Var
                (fun _ x => (x, None))) as H.
  split.
  - apply (proj1 (H _)). by right.
  - by apply (proj1 (proj2 (H _))).
Defined.

(** ** Termination *)

Lemma filterMap_insert (m : gmap string any) i x :
  m !! i = None ->
  filterMap (<[i := x]> m) = filterMapEntry i x (filterMap m).
Proof.
  intros Hi. rewrite filterMapEntry_filterValue. apply map_eq. intros k.
  rewrite filterMap_lookup. destruct (decide (i = k)) as [->|Hne].
  - rewrite lookup_insert_eq. simpl.
    destruct (filterValue x); [by rewrite lookup_insert_eq|].
    by rewrite filterMap_lookup, Hi.
  - rewrite lookup_insert_ne by done.
    destruct (filterValue x); [rewrite lookup_insert_ne by done|];
      by rewrite filterMap_lookup.
Qed.

Lemma filterMapFuel_enough fuel : forall m : gmap string any,
  depth (MapAny m) <= fuel -> filterMapFuel fuel m = Some (filterMap m).
Proof.
  induction fuel as [|fuel IH]; intros m Hd; [simpl in Hd; lia|].
  assert (forall k x, m !! k = Some x -> depth x <= fuel) as Hb.
  { intros k x Hk. apply depth_entry in Hk. lia. }
  clear Hd. revert Hb. cbn [filterMapFuel].
  apply (map_fold_weak_ind
           (fun r (m : gmap string any) =>
              (forall k x, m !! k = Some x -> depth x <= fuel) ->
              r = Some (filterMap m))).
  - done.
  - intros i x m' r Hi IHm Hb.
    rewrite IHm; [|intros k y Hk; apply (Hb k);
                    rewrite lookup_insert_ne; [done|congruence]].
    rewrite filterMap_insert by done.
    assert (depth x <= fuel) as Hx.
    { apply (Hb i). by rewrite lookup_insert_eq. }
    rewrite filterMapEntry_eq. cbn [mbind option_bind].
    destruct (asNullVar x) as [val|]; [done|].
    destruct x as [ | | | |val|t| |b fields|p]; try done.
    + rewrite (IH t) by done. done.
    + destruct fuel as [|fuel']; [change (1 <= 0) in Hx; lia|]. done.
Qed.

Lemma filterFieldFuel_enough tg recSF recMF recS acc sf x :
  (asFilterable x = true -> recSF x = Some (recS x)) ->
  (forall t, x = MapAny t -> recMF t = Some (filterMap t)) ->
  (x = NilMap -> recMF ∅ = Some (filterMap ∅)) ->
  filterFieldFuel tg recSF recMF (Some acc) (sf, x)
  = Some (filterField tg recS acc (sf, x)).
Proof.
  intros HS HM HN. unfold filterFieldFuel, filterField. simpl.
  destruct (negb (Exported sf)); [done|].
  destruct (Tag_Lookup (Tag sf) tg) as [fTag tagOk].
  destruct (negb tagOk && negb (Anonymous sf)); [done|].
  match goal with |- (if ?c then _ else _) = _ => destruct c; [done|] end.
  destruct (Kind sf); [| |done].
  - destruct (asFilterable x); [by rewrite HS|].
    by destruct (asNullVar x).
  - destruct x as [ | | | |val|t| | | ]; try done.
    + by rewrite (HM t eq_refl).
    + by rewrite (HN eq_refl).
Qed.

Lemma filterStructFuel_enough fuel tg : forall s,
  depth s < fuel -> filterStructFuel fuel tg s = Some (filterStruct tg s).
Proof.
  induction fuel as [|fuel IH]; intros s Hd; [lia|].
  destruct s as [ | | | |val|t| |b fields|p]; try done.
  cbn [filterStructFuel filterStruct].
  assert (forall sf x, (sf, x) ∈ fields -> depth x < fuel) as Hb.
  { intros sf x Hin. apply (depth_field b) in Hin. lia. }
  clear Hd. generalize (∅ : gmap string any) as acc.
  induction fields as [|[sf x] fields IHf]; intros acc; [done|].
  cbn [fold_left].
  assert (depth x < fuel) as Hx by (apply (Hb sf); left).
  rewrite (filterFieldFuel_enough tg _ _ (filterStruct tg)).
  - apply IHf. intros sf' y Hin. apply (Hb sf'). by right.
  - intros _. by apply IH.
  - intros t ->. apply filterMapFuel_enough. by apply Nat.lt_le_incl.
  - intros ->. apply filterMapFuel_enough.
    change (1 < fuel) in Hx. change (1 <= fuel). lia.
Qed.

(** C9: on every value of the embedding, all of which are finite and
    acyclic, both routines return: a call budget above the nesting depth
    of the input is enough for the general recursive routines to produce
    the result, because every recursive call is made on a sub-entry or a
    sub-field, whose depth is strictly smaller. *)
Theorem filtering_terminates fuel tg (s : any) (m : gmap string any) :
  (depth s < fuel -> filterStructFuel fuel tg s = Some (filterStruct tg s))
  /\ (depth (MapAny m) <= fuel -> filterMapFuel fuel m = Some (filterMap m))
  /\ (forall k x, m !! k = Some x -> depth x < depth (MapAny m))
  /\ (forall b fields sf x,
        s = Struct b fields -> (sf, x) ∈ fields -> depth x < depth s).
Proof.
  split; [apply filterStructFuel_enough|].
  split; [apply filterMapFuel_enough|].
  split; [intros k x; apply depth_entry|].
  intros b fields sf x ->. apply depth_field.
Qed.

Lemma filtering_terminates_witness :
  filterStructFuel 5 "json" test_def2 = Some (filterStruct "json" test_def2)
  /\ filterMapFuel 3 test_m = Some (filterMap test_m).
Proof.
  pose proof (filtering_terminates 5 "json" test_def2 test_m) as (H1 & _).
  pose proof (filtering_terminates 3 "json" test_def2 test_m) as (_ & H2 & _).
  split; [apply H1|apply H2]; vm_compute; lia.
Defined.

(** ** Errors and panics of the entry points *)

Lemma applyOpts_non_nil (fs : list filterOpt) fOpts :
  applyOpts (map Some fs) fOpts
  = Returned (fold_left (fun f opt => opt f) fs fOpts).
Proof.
  revert fOpts. induction fs as [|opt fs IH]; intros fOpts; [done|].
  simpl. apply IH.
Qed.

Lemma applyOpts_nil opts fOpts :
  None ∈ opts -> applyOpts opts fOpts = Panicked.
Proof.
  revert fOpts. induction opts as [|[opt|] opts IH]; intros fOpts Hin.
  - by apply elem_of_nil in Hin.
  - simpl. apply IH. by apply elem_of_cons in Hin as [?|?].
  - done.
Qed.

Lemma opts_nil_or_not (opts : list (option filterOpt)) :
  None ∈ opts \/ exists fs, opts = map Some fs.
Proof.
  induction opts as [|[opt|] opts IH].
  - right. by exists [].
  - destruct IH as [Hin|[fs ->]]; [left; by right|].
    right. by exists (opt :: fs).
  - left. left.
Qed.

(** C3, as the specification states it, fails: the input is a struct and
    not nil, so that no error is returned, and an option that is the nil
    func makes the call panic at line 49, without a mapping. *)
Lemma nil_option_panics :
  Struct false [] <> Nil /\ kindOf (Struct false []) = KStruct
  /\ FilterStruct_call (Struct false []) [None] = Panicked.
Proof. done. Qed.

(** C3, amended: FilterStruct returns an error and no mapping exactly
    when its input is nil or is not of struct kind, whatever the
    options, which are applied after that validation only; FilterMap
    returns an error and no mapping exactly when its input is the nil
    map. In every other case, on the finite and acyclic inputs without a
    nil pointer that has the container's capability, FilterMap returns a
    mapping, the one the recursive routine produces within a call depth
    bounded by the nesting depth of the input, and no error, and
    FilterStruct does the same when none of its options is the nil func,
    and panics when one is. *)
Theorem entry_point_errors :
  (forall s opts,
     (s = Nil
      /\ FilterStruct_call s opts
         = Returned (None, Some (errors_New "input cannot be nil")))
     \/ (s <> Nil /\ kindOf s <> KStruct
         /\ FilterStruct_call s opts
            = Returned
                (None,
                 Some (fmt_Errorf "invalid type %T. input must be a struct" s)))
     \/ (s <> Nil /\ kindOf s = KStruct /\ None ∈ opts
         /\ FilterStruct_call s opts = Panicked)
     \/ (s <> Nil /\ kindOf s = KStruct
         /\ exists fs, opts = map Some fs
            /\ FilterStruct_call s opts = Returned (FilterStruct s fs)
            /\ let tg := tag (fold_left (fun f opt => opt f) fs
                                defaultFilterOpts) in
               FilterStruct s fs = (Some (filterStruct tg s), None)
               /\ filterStructFuel (S (depth s)) tg s
                  = Some (filterStruct tg s)))
  /\ (forall m,
     (m = None
      /\ FilterMap m = (None, Some (errors_New "input cannot be nil")))
     \/ (exists m0, m = Some m0
         /\ FilterMap m = (Some (filterMap m0), None)
         /\ filterMapFuel (depth (MapAny m0)) m0 = Some (filterMap m0))).
Proof.
  split.
  - intros s opts.
    destruct (kind_eqb (kindOf s) KStruct) eqn:Hkb.
    + assert (kindOf s = KStruct) as Hk by (by destruct (kindOf s)).
      assert (s <> Nil) as Hs by (by intros ->).
      do 2 right.
      destruct (opts_nil_or_not opts) as [Hin|[fs ->]].
      * left. repeat split; [done..|].
        unfold FilterStruct_call. rewrite (applyOpts_nil _ _ Hin).
        by destruct s.
      * right. repeat split; [done..|]. exists fs. split; [done|].
        split; [|split].
        -- unfold FilterStruct_call, FilterStruct. rewrite applyOpts_non_nil.
           by destruct s.
        -- unfold FilterStruct. by destruct s.
        -- apply filterStructFuel_enough. lia.
    + destruct s; try done; auto; right; left; auto.
  - intros [m0|]; [right|left; auto].
    exists m0. split; [done|]. split; [done|].
    by apply filterMapFuel_enough.
Qed.

(** * Further properties of the code *)

(** ** The container: mutators, decoding, scanning, storage value *)

Section ContainerMore.
Context {T : Type} (def : T).
Context {error : Type}.
Context (json_Marshal : T -> list Byte.byte * option error).
Context (json_Unmarshal : list Byte.byte -> T -> T * option error).
Context {Src : Type}.
Context (convertAssign : T -> Src -> T * option error).
Context {DV : Type} (toValue : T -> DV).
Context (Valuer_Value : T -> option (option DV * option error)).

(** X1: decoding the null marker and scanning nil both do what [SetNil]
    does and return no error; and the result of [UnmarshalJSON] never
    depends on the state of the receiver, because the payload is reset
    before the decoder is called. *)
Theorem null_input_is_SetNil (v w : Var T) (data : list Byte.byte) :
  UnmarshalJSON def json_Unmarshal v nullBytes = (Var_SetNil def v, None)
  /\ Scan def convertAssign v None = (Var_SetNil def v, None)
  /\ UnmarshalJSON def json_Unmarshal v data
     = UnmarshalJSON def json_Unmarshal w data.
Proof. repeat split. Qed.

(** X2: a container that is set and valid comes back from [MarshalJSON]
    followed by [UnmarshalJSON] as it was, whatever the receiver held,
    when the codec of the payload round-trips and does not encode the
    payload as the null marker; every other container, the unset one
    included, comes back as the explicit null. *)
Theorem json_round_trip (v w : Var T) :
  (set v = true -> valid v = true ->
   forall bs, json_Marshal (value v) = (bs, None) -> bs <> nullBytes ->
   json_Unmarshal bs def = (value v, None) ->
   UnmarshalJSON def json_Unmarshal w (MarshalJSON json_Marshal v).1
   = (v, None))
  /\ (set v = false \/ valid v = false ->
      UnmarshalJSON def json_Unmarshal w (MarshalJSON json_Marshal v).1
      = (mkVar true false def, None)).
Proof.
  split.
  - intros Hs Hv bs Hm Hne Hu. destruct v as [s b x]. simpl in *. subst.
    unfold MarshalJSON, UnmarshalJSON. simpl. rewrite Hm. simpl.
    destruct (bytes_Equal nullBytes bs) eqn:Heq.
    + apply bool_decide_eq_true in Heq. congruence.
    + by rewrite Hu.
  - intros Hnull.
    assert (MarshalJSON json_Marshal v = (nullBytes, None)) as ->.
    { unfold MarshalJSON. destruct Hnull as [-> | ->]; [|done].
      by rewrite orb_true_r. }
    reflexivity.
Qed.

(** X3: [Scan] of a value that is not nil does not reset the payload
    first, unlike [UnmarshalJSON]: when [convertAssign] fails and leaves
    its destination as it was, the container comes out set and valid
    with the payload the receiver held before, and the error is
    returned. *)
Theorem failed_Scan_keeps_old_payload (v : Var T) (s : Src) (e : error) :
  convertAssign (value v) s = (value v, Some e) ->
  Scan def convertAssign v (Some s) = (mkVar true true (value v), Some e).
Proof. intros Hc. unfold Scan. simpl. by rewrite Hc. Qed.

(** X4: [MarshalJSON], [Value] and [getVal] agree on when the container
    counts as null: when [getVal] returns nil the other two return the
    null marker and the nil value without error; when it returns a
    payload, [MarshalJSON] returns its encoding and [Value] the payload,
    through the payload's own [Value()] if it has one. *)
Theorem null_exits_agree (v : Var T) :
  (getVal v = None ->
   MarshalJSON json_Marshal v = (nullBytes, None)
   /\ Value toValue Valuer_Value v = (None, None))
  /\ (forall p, getVal v = Some p ->
      MarshalJSON json_Marshal v = json_Marshal p
      /\ Value toValue Valuer_Value v
         = match Valuer_Value p with
           | Some r => r
           | None => (Some (toValue p), None)
           end).
Proof.
  unfold getVal, MarshalJSON, Value. destruct v as [s b x]. simpl.
  destruct s, b; simpl; split; try done; intros p [= <-]; done.
Qed.
End ContainerMore.

Lemma json_round_trip_witness :
  UnmarshalJSON (error := string) 0
    (fun bs _ => (length bs, None)) (mkVar false false 0)
    (MarshalJSON (error := string) (fun n : nat => (repeat Byte.x00 n, None))
       (mkVar true true 3)).1
  = (mkVar true true 3, None)
  /\ UnmarshalJSON (error := string) 0
       (fun bs _ => (length bs, None)) (mkVar true true 9)
       (MarshalJSON (error := string) (fun n : nat => (repeat Byte.x00 n, None))
          (mkVar false false 0)).1
     = (mkVar true false 0, None).
Proof.
  pose proof (json_round_trip (error := string) 0
                (fun n : nat => (repeat Byte.x00 n, None))
                (fun bs _ => (length bs, None))) as H.
  split.
  - apply (proj1 (H (mkVar true true 3) (mkVar false false 0))
             eq_refl eq_refl (repeat Byte.x00 3)); [done|done|done].
  - apply (proj2 (H (mkVar false false 0) (mkVar true true 9))). by left.
Defined.

Lemma failed_Scan_keeps_old_payload_witness :
  Scan 0 (fun (x : nat) (_ : string) => (x, Some "unsupported"))
    (mkVar false false 7) (Some "src")
  = (mkVar true true 7, Some "unsupported").
Proof.
  by apply (failed_Scan_keeps_old_payload 0
              (fun (x : nat) (_ : string) => (x, Some "unsupported"))
              (mkVar false false 7) "src" "unsupported").
Defined.

Lemma null_exits_agree_witness :
  MarshalJSON json_Marshal_bool (mkVar true false true) = (nullBytes, None)
  /\ Value (DV := bool) (fun b => b) (fun _ => None) (mkVar true true true)
     = (Some true, @None string).
Proof.
  pose proof (null_exits_agree json_Marshal_bool (DV := bool) (fun b => b)
                (fun _ => None)) as H.
  split.
  - by apply (proj1 (H (mkVar true false true))).
  - by apply (proj2 (H (mkVar true true true)) true).
Defined.

(** ** Map filtering: keys, plain entries, empty results, fixed points *)


Lemma size_eqb_0_empty (m : gmap string any) :
  (size m =? 0)%nat = true <-> m = ∅.
Proof. rewrite Nat.eqb_eq. apply map_size_empty_iff. Qed.





(** X6: what a container that is not valid holds as payload never
    reaches the output, also when the invariant of the container is
    broken; and an entry holding an unset container is filtered as if
    its key were not in the mapping. *)
Theorem stale_payload_never_leaks (m : gmap string any) k s b (p p' : any) :
  filterMap (<[k := NullVar (mkVar s false p)]> m)
  = filterMap (<[k := NullVar (mkVar s false p')]> m)
  /\ filterMap (<[k := NullVar (mkVar false b p)]> m) = filterMap (delete k m).
Proof.
  split; apply map_eq; intros i; rewrite !filterMap_lookup;
    destruct (decide (k = i)) as [->|Hne].
  - rewrite !lookup_insert_eq. simpl. by destruct s.
  - by rewrite !lookup_insert_ne.
  - by rewrite lookup_insert_eq, lookup_delete_eq.
  - by rewrite lookup_insert_ne, lookup_delete_ne.
Qed.



(** ** Record filtering: skipped fields, copied fields, keys, tags *)

Lemma filterStruct_without_field tg b pre f post :
  (forall retMap, filterField tg (filterStruct tg) retMap f = retMap) ->
  filterStruct tg (Struct b (pre ++ f :: post))
  = filterStruct tg (Struct b (pre ++ post)).
Proof.
  intros Hskip. rewrite filterStruct_split, Hskip.
  by rewrite !filterStruct_fields, fold_left_app.
Qed.

Lemma fieldNameOf_tagged tg sf :
  fieldNameOf tg sf <> "" -> (Tag_Lookup (Tag sf) tg).2 = true.
Proof.
  intros Hn. destruct (Tag_Lookup (Tag sf) tg).2 eqn:Ht; [done|].
  by rewrite (fieldNameOf_missing _ _ Ht) in Hn.
Qed.

(** X9: a field that is unexported, or whose key is ["-"], or whose key
    is empty while the field is not embedded or not of struct kind, is
    ignored whatever it holds: the output is the output of the record
    without that field. *)
Theorem skipped_fields_ignored tg b pre post sf fv :
  Exported sf = false
  \/ fieldNameOf tg sf = "-"
  \/ (fieldNameOf tg sf = ""
      /\ (Anonymous sf = false \/ Kind sf <> KStruct)) ->
  filterStruct tg (Struct b (pre ++ (sf, fv) :: post))
  = filterStruct tg (Struct b (pre ++ post)).
Proof.
  intros Hcase. apply filterStruct_without_field. intros retMap.
  rewrite filterField_unfold. cbv zeta.
  destruct Hcase as [-> | [-> | [-> Hc]]]; [done| |].
  - destruct (negb (Exported sf)); [done|].
    by destruct (negb (Tag_Lookup (Tag sf) tg).2 && negb (Anonymous sf)).
  - destruct (negb (Exported sf)); [done|].
    destruct (negb (Tag_Lookup (Tag sf) tg).2 && negb (Anonymous sf)); [done|].
    simpl. destruct (Anonymous sf); simpl; [|done].
    destruct Hc as [?|Hk]; [done|]. by destruct (Kind sf).
Qed.

Lemma skipped_fields_ignored_witness :
  filterStruct "json"
    (Struct false
       [ (mkField "Secret" true false (jsonTag "-") KOther, Str "s");
         (mkField "B" true false (jsonTag "b") KOther, Str "x") ])
  = filterStruct "json"
      (Struct false [ (mkField "B" true false (jsonTag "b") KOther, Str "x") ]).
Proof.
  apply (skipped_fields_ignored "json" false []
           [ (mkField "B" true false (jsonTag "b") KOther, Str "x") ]
           (mkField "Secret" true false (jsonTag "-") KOther) (Str "s")).
  right; left. reflexivity.
Defined.



(** X11: a field of a filterable record type that has a key of its own
    holds in the output, unless a later field writes the key, the result
    of filtering the nested record with the same tag name, when that
    result is not empty: the tag name chosen at the entry point is the
    one used at every depth. *)
Theorem nested_record_same_tag tg b pre post sf fv :
  Exported sf = true ->
  fieldNameOf tg sf <> "" -> fieldNameOf tg sf <> "-" ->
  Kind sf = KStruct -> asFilterable fv = true ->
  filterStruct tg fv <> ∅ ->
  Forall (fun f => fieldNameOf tg sf ∉ fieldKeys tg f) post ->
  filterStruct tg (Struct b (pre ++ (sf, fv) :: post)) !! fieldNameOf tg sf
  = Some (MapAny (filterStruct tg fv)).
Proof.
  intros He Hn Hd Hk Hf Hne Hpost.
  rewrite filterStruct_split, filterFields_other_key by done.
  rewrite filterField_nested; [|done|left; by apply fieldNameOf_tagged|done..].
  destruct (size (filterStruct tg fv) =? 0)%nat eqn:Hsz.
  - by apply size_eqb_0_empty in Hsz.
  - by rewrite lookup_insert_eq.
Qed.

Lemma nested_record_same_tag_witness :
  filterStruct "custom_tag" test_S1 !! "s2"
  = Some (MapAny (filterStruct "custom_tag" test_S2)).
Proof.
  apply (nested_record_same_tag "custom_tag" true
           (firstn 4 (match test_S1 with Struct _ fs => fs | _ => [] end))
           (skipn 5 (match test_S1 with Struct _ fs => fs | _ => [] end))
           (mkField "StructField" true false (bothTags "s2") KStruct) test_S2);
    try done.
  repeat constructor; vm_compute; set_solver.
Defined.

Lemma filterField_no_dash tg rec (retMap : gmap string any) sf fv :
  retMap !! "-" = None -> rec fv !! "-" = None ->
  filterField tg rec retMap (sf, fv) !! "-" = None.
Proof.
  intros Hr Hrec. rewrite filterField_unfold. cbv zeta.
  destruct (negb (Exported sf)); [done|].
  destruct (negb (Tag_Lookup (Tag sf) tg).2 && negb (Anonymous sf)); [done|].
  destruct (String.eqb (fieldNameOf tg sf) "-") eqn:Hd; [done|].
  apply String.eqb_neq in Hd. simpl.
  match goal with |- (if ?c then _ else _) !! _ = _ => destruct c; [done|] end.
  destruct (Kind sf).
  - destruct (asFilterable fv).
    + destruct (Anonymous sf && String.eqb (fieldNameOf tg sf) "").
      * by apply lookup_union_None.
      * destruct (size (rec fv) =? 0)%nat; [done|].
        by rewrite lookup_insert_ne.
    + destruct (asNullVar fv) as [nv|].
      * destruct (isSet nv); [by rewrite lookup_insert_ne|done].
      * destruct (negb (String.eqb (fieldNameOf tg sf) ""));
          [by rewrite lookup_insert_ne|done].
  - destruct fv as [ | | | |val|m| | | ];
      try (by rewrite lookup_insert_ne).
    + destruct (size (filterMap m) =? 0)%nat; [done|].
      by rewrite lookup_insert_ne.
    + done.
  - by rewrite lookup_insert_ne.
Qed.

Lemma filterStruct_no_dash n tg : forall s,
  depth s < n -> filterStruct tg s !! "-" = None.
Proof.
  induction n as [|n IH]; [lia|].
  intros s Hd. destruct s as [ | | | |val|t| |b fields|p]; try done.
  rewrite filterStruct_fields.
  assert (forall sf x, (sf, x) ∈ fields -> depth x < n) as Hb.
  { intros sf x Hin. apply (depth_field b) in Hin. lia. }
  clear Hd.
  assert ((∅ : gmap string any) !! "-" = None) as Hacc by done.
  revert Hacc. generalize (∅ : gmap string any) as acc.
  induction fields as [|[sf x] fields IHf]; intros acc Hacc; [done|].
  cbn [fold_left]. apply IHf.
  - intros sf' y Hin. apply (Hb sf'). by right.
  - apply filterField_no_dash; [done|]. apply IH, (Hb sf). left.
Qed.

(** X12: the key ["-"] is never in the output of record filtering, at
    any depth of promotion of embedded records, whatever the tag name. *)
Theorem dash_never_a_key tg (s : any) (opts : list filterOpt) :
  filterStruct tg s !! "-" = None
  /\ (forall out, FilterStruct s opts = (Some out, None) -> out !! "-" = None).
Proof.
  assert (forall tg', filterStruct tg' s !! "-" = None) as H.
  { intros tg'. eapply filterStruct_no_dash. constructor. }
  split; [done|]. intros out Hout. unfold FilterStruct in Hout.
  destruct s; cbn [kindOf kind_eqb negb] in Hout; try discriminate Hout;
    injection Hout as <-;
    exact (H (tag (fold_left (fun f opt => opt f) opts defaultFilterOpts))).
Qed.

Lemma dash_never_a_key_witness :
  FilterStruct test_S1 [] = (Some test_expectDef, None)
  /\ test_expectDef !! "-" = None.
Proof.
  assert (FilterStruct test_S1 [] = (Some test_expectDef, None)) as H
    by (vm_compute; reflexivity).
  split; [exact H|].
  exact (proj2 (dash_never_a_key "json" test_S1 []) test_expectDef H).
Defined.


Lemma strings_Split_nonempty s sep : strings_Split s sep <> [].
Proof.
  destruct s as [|c s]; simpl; [done|].
  destruct (Ascii.eqb c sep); [done|]. by destruct (strings_Split s sep).
Qed.

Lemma strings_Split_no_comma a : no_comma a = true -> strings_Split a "," = [a].
Proof.
  induction a as [|c a IH]; simpl; [done|].
  intros [Hc Ha]%andb_true_iff. apply negb_true_iff in Hc.
  by rewrite Hc, (IH Ha).
Qed.

Lemma strings_Split_first a b :
  no_comma a = true ->
  strings_Split (a ++ String "," b) "," = a :: strings_Split b ",".
Proof.
  induction a as [|c a IH]; simpl; [done|].
  intros [Hc Ha]%andb_true_iff. apply negb_true_iff in Hc.
  by rewrite Hc, (IH Ha).
Qed.

(** X14: the output key of a field is the part of its tag value before
    the first comma, and the whole value when it has no comma: options
    such as [omitempty] are not part of the key and have no effect. *)
Theorem tag_options_ignored tg sf (a b : string) :
  no_comma a = true ->
  (Tag_Lookup (Tag sf) tg = (a, true) -> fieldNameOf tg sf = a)
  /\ (Tag_Lookup (Tag sf) tg = (a ++ String "," b, true) ->
      fieldNameOf tg sf = a).
Proof.
  intros Ha. unfold fieldNameOf. split; intros ->.
  - by rewrite strings_Split_no_comma.
  - by rewrite strings_Split_first.
Qed.

Lemma tag_options_ignored_witness :
  fieldNameOf "json" (mkField "A" true false [("json", "a,omitempty")] KOther)
  = "a".
Proof.
  apply (proj2 (tag_options_ignored "json"
                  (mkField "A" true false [("json", "a,omitempty")] KOther)
                  "a" "omitempty" eq_refl)).
  reflexivity.
Defined.



(** ** The comparison helpers of the tests *)

Lemma sliceLoop_true (u o : list Z) n : forall i,
  NullTest.sliceLoop u o i n = true
  <-> forall j, i <= j < i + n -> nth j u 0%Z = nth j o 0%Z.
Proof.
  induction n as [|n IH]; intros i; simpl.
  - split; [intros _ j Hj; lia|done].
  - destruct (nth i u 0 =? nth i o 0)%Z eqn:Hi; simpl.
    + apply Z.eqb_eq in Hi. rewrite IH. split.
      * intros Hall j Hj. destruct (decide (j = i)) as [->|Hne]; [done|].
        apply Hall. lia.
      * intros Hall j Hj. apply Hall. lia.
    + apply Z.eqb_neq in Hi. split; [done|].
      intros Hall. exfalso. apply Hi, Hall. lia.
Qed.

Lemma slices_Equal (u o : list Z) :
  length u = length o ->
  NullTest.sliceLoop u o 0 (length u) = true <-> u = o.
Proof.
  intros Hlen. rewrite sliceLoop_true. split.
  - intros Hall. apply (nth_ext u o 0%Z 0%Z Hlen).
    intros j Hj. apply Hall. lia.
  - by intros ->.
Qed.

(** X16: [Equal] on [customDefinedSlice] returns true exactly when the
    two slices have the same elements in the same order, and [Equal] on
    [customDefinedStruct] exactly when the two structs have the same
    [Str], the same [Int64] and such slices. *)
Theorem slice_and_struct_Equal_decide_equality :
  (forall u o : NullTest.customDefinedSlice,
     NullTest.customDefinedSlice_Equal u o = true <-> u = o)
  /\ (forall u o : NullTest.customDefinedStruct,
     NullTest.customDefinedStruct_Equal u o = true <-> u = o).
Proof.
  split.
  - intros u o. unfold NullTest.customDefinedSlice_Equal.
    destruct (length u =? length o)%nat eqn:Hlen; simpl.
    + apply Nat.eqb_eq in Hlen. by apply slices_Equal.
    + apply Nat.eqb_neq in Hlen. split; [done|]. intros ->. done.
  - intros [s1 i1 l1] [s2 i2 l2]. unfold NullTest.customDefinedStruct_Equal.
    simpl. destruct (length l1 =? length l2)%nat eqn:Hlen; simpl.
    + apply Nat.eqb_eq in Hlen.
      destruct (NullTest.sliceLoop l1 l2 0 (length l1)) eqn:Hloop; simpl.
      * apply (slices_Equal l1 l2 Hlen) in Hloop as ->.
        rewrite andb_true_iff, String.eqb_eq, Z.eqb_eq.
        split; [by intros [-> ->]|]. by intros [= -> ->].
      * split; [done|]. intros [= -> -> ->].
        rewrite (proj2 (slices_Equal l2 l2 eq_refl) eq_refl) in Hloop. done.
    + apply Nat.eqb_neq in Hlen. split; [done|]. by intros [= -> -> ->].
Qed.

Section MapEqualFacts.
Context {K : Type} `{Countable K} {V : Type} (neq : V -> V -> bool).

Lemma mapLoop_true (u o : gmap K V) :
  map_fold (fun k x ok =>
              match o !! k with
              | Some y => if neq x y then false else ok
              | None => ok
              end) true u = true
  <-> forall k x y, u !! k = Some x -> o !! k = Some y -> neq x y = false.
Proof.
  apply (map_fold_weak_ind
           (fun r (u : gmap K V) =>
              r = true
              <-> forall k x y,
                    u !! k = Some x -> o !! k = Some y -> neq x y = false)).
  - split; [intros _ k x y Hk|done]. by rewrite lookup_empty in Hk.
  - intros i x m r Hi IH. split.
    + intros Hr k x' y Hk Ho. destruct (decide (i = k)) as [->|Hne].
      * rewrite lookup_insert_eq in Hk. simplify_eq. rewrite Ho in Hr.
        by destruct (neq x' y).
      * rewrite lookup_insert_ne in Hk by done.
        assert (r = true) as Hr'.
        { destruct (o !! i) as [y'|]; [by destruct (neq x y')|done]. }
        by eapply IH.
    + intros Hall.
      assert (r = true) as ->.
      { apply IH. intros k x' y Hk Ho. apply (Hall k); [|done].
        rewrite lookup_insert_ne; [done|congruence]. }
      destruct (o !! i) as [y|] eqn:Ho; [|done].
      rewrite (Hall i x y); [done|by rewrite lookup_insert_eq|done].
Qed.

(** X17: [Equal] on [customDefinedMap], for keys on which [==] is
    identity, returns true exactly when the two maps have the same
    number of entries and no key they share holds values that differ by
    [!=]; so it is true of any two maps of the same size that share no
    key, and true of a map and itself exactly when no value of the map
    differs from itself (as a float NaN does). *)
Theorem customDefinedMap_Equal_common_keys (u o : gmap K V) :
  (NullTest.customDefinedMap_Equal neq u o = true
   <-> size u = size o
       /\ forall k x y, u !! k = Some x -> o !! k = Some y -> neq x y = false)
  /\ (NullTest.customDefinedMap_Equal neq u u = true
      <-> forall k x, u !! k = Some x -> neq x x = false)
  /\ (size u = size o -> (forall k, is_Some (u !! k) -> o !! k = None) ->
      NullTest.customDefinedMap_Equal neq u o = true).
Proof.
  assert (forall u o : gmap K V,
            NullTest.customDefinedMap_Equal neq u o = true
            <-> size u = size o
                /\ forall k x y,
                     u !! k = Some x -> o !! k = Some y -> neq x y = false)
    as Hchar.
  { clear u o. intros u o. unfold NullTest.customDefinedMap_Equal.
    destruct (size u =? size o)%nat eqn:Hsz; simpl.
    - apply Nat.eqb_eq in Hsz. rewrite mapLoop_true.
      split; [by split|by intros [_ ?]].
    - apply Nat.eqb_neq in Hsz. split; [done|by intros [? _]]. }
  split; [apply Hchar|]. split.
  - rewrite Hchar. split.
    + intros [_ Hall] k x Hx. by apply (Hall k).
    + intros Hall. split; [done|]. intros k x y Hx Hy.
      rewrite Hx in Hy. injection Hy as <-. by apply (Hall k).
  - intros Hsz Hdisj. apply Hchar. split; [done|].
    intros k x y Hx Hy. rewrite Hdisj in Hy; [done|eauto].
Qed.
End MapEqualFacts.

Lemma customDefinedMap_Equal_common_keys_witness :
  NullTest.customDefinedMap_Equal (fun a b : Z => negb (a =? b)%Z)
    ({[ "a" := 1%Z ]} : gmap string Z) {[ "b" := 2%Z ]} = true.
Proof.
  apply (proj2 (proj2 (customDefinedMap_Equal_common_keys
                         (fun a b : Z => negb (a =? b)%Z)
                         ({[ "a" := 1%Z ]} : gmap string Z)
                         {[ "b" := 2%Z ]}))).
  - vm_compute. reflexivity.
  - intros k [x Hk]. apply lookup_singleton_Some in Hk as [<- _].
    by rewrite lookup_singleton_ne.
Defined.

(** X18: the oracle [checkVar] of the tests returns no error exactly
    when [IsSet] and [Valid] return the wanted flags and [Val] returns a
    payload that does not differ from the wanted one by [!=]. *)
Theorem checkVar_accepts_exactly {T : Type} (neq : T -> T -> bool)
  (fmt_v : T -> string) (v : Var T) (wantSet wantValid : bool) (wantValue : T) :
  NullTest.checkVar neq fmt_v v wantSet wantValid wantValue = None
  <-> IsSet v = wantSet /\ Valid v = wantValid
      /\ neq (Val v) wantValue = false.
Proof.
  unfold NullTest.checkVar, NullTest.assertEqual, NullTest.neq_bool.
  destruct (IsSet v), wantSet, (Valid v), wantValid,
    (neq (Val v) wantValue); simpl; split; try done;
    intros (? & ? & ?); done.
Qed.
